(** * A shallow embedding of [l2l/logger.py]

    The [Logger] class writes scalars, image batches and histograms to a
    TensorBoard event file through [tf.summary.FileWriter].  Every method
    builds a [tf.Summary] protocol buffer and hands it to the writer.

    Conventions of the embedding.
    - Python exceptions are values of [Py.exn]; a computation that may raise
      returns an [Py.outcome].
    - Methods that touch the writer are state-passing functions in the monad
      [M]: they take the writer and return an outcome together with the writer
      as it is when the method returns or raises.
    - The writer is seen through the calls it receives, in order; what is
      queued and what has reached the event file are functions of those calls.
    - A finite Python float is given by its exact value, a rational ([Q]).
      Where the code stores or computes in floating point (the 32-bit
      [simple_value], the sums of [log_histogram]), the result is an IEEE 754
      number of the Standard Library's [SpecFloat], rounded as the format
      prescribes.  The edges that [np.histogram] computes are kept exact.
    - Wall-clock time stamps of events are left out. *)

From Stdlib Require Import Init.Byte List String ZArith QArith SpecFloat.
From Stdlib Require Import DecimalString DecimalNat Lia Lqa.
Import ListNotations.

Open Scope string_scope.
Open Scope list_scope.

(** ** Python values and exceptions *)

Module Py.

Inductive exn : Type :=
| TypeError (msg : string)
| ValueError (msg : string)
| IndexError (msg : string)
| OtherError (msg : string).

Inductive outcome (A : Type) : Type :=
| Ok (a : A)
| Raise (e : exn).
Arguments Ok {A} a.
Arguments Raise {A} e.

Definition bind {A B} (c : outcome A) (k : A -> outcome B) : outcome B :=
  match c with
  | Ok a => k a
  | Raise e => Raise e
  end.

(** What a file object is asked to write: [str] or [bytes]. *)
Inductive data : Type :=
| Text (s : string)
| Bytes (b : list byte).

(** [str(n)] for a non-negative [int], as used by the [%d] conversion. *)
Definition str_of_nat (n : nat) : string :=
  NilEmpty.string_of_uint (Nat.to_uint n).

(** [t[i]] on a tuple. *)
Definition tuple_index {A} (t : list A) (i : nat) : outcome A :=
  match nth_error t i with
  | Some a => Ok a
  | None => Raise (IndexError "tuple index out of range")
  end.

End Py.

Declare Scope py_scope.
Delimit Scope py_scope with py.
Notation "x <- c ;; k" := (Py.bind c (fun x => k))
  (at level 61, c at next level, right associativity) : py_scope.

(** ** IEEE 754 binary floating point

    Rounding and arithmetic are those of [SpecFloat], the Standard Library's
    specification of the binary formats: round to nearest, ties to even,
    overflow to infinity. *)

Module Float.

(** The number of the format with [prec] bits of mantissa and infinities at
    exponent [emax] that is nearest to the rational [x]. *)
Definition of_Q (prec emax : Z) (x : Q) : spec_float :=
  match Qnum x with
  | Z0 => S754_zero false
  | Zpos p =>
      SFdiv prec emax (S754_finite false p 0) (S754_finite false (Qden x) 0)
  | Zneg p =>
      SFdiv prec emax (S754_finite true p 0) (S754_finite false (Qden x) 0)
  end.

(** The exact value of a finite number; none for infinities and NaN. *)
Definition to_Q (f : spec_float) : option Q :=
  match f with
  | S754_zero _ => Some 0%Q
  | S754_finite s m e =>
      Some (inject_Z (cond_Zopp s (Zpos m)) * (2 # 1) ^ e)%Q
  | S754_infinity _ | S754_nan => None
  end.

End Float.

(** Single precision, the [float] of protocol buffers. *)
Module Float32.

Definition of_Q : Q -> spec_float := Float.of_Q 24 128.

End Float32.

(** Double precision, the Python [float] and numpy's [float64]. *)
Module Float64.

Definition of_Q : Q -> spec_float := Float.of_Q 53 1024.
Definition zero : spec_float := S754_zero false.
Definition add : spec_float -> spec_float -> spec_float := SFadd 53 1024.
Definition mul : spec_float -> spec_float -> spec_float := SFmul 53 1024.

End Float64.

(** ** [io]: in-memory file objects *)

Module io.

(** The part of the file-object protocol that [log_images] relies on. *)
Record FileObj : Type := {
  buffer : Type;
  new : buffer;
  write : buffer -> Py.data -> Py.outcome buffer;
  getvalue : buffer -> Py.data
}.

(** [io.StringIO] is a text stream: it holds [str] and refuses [bytes]. *)
Definition StringIO : FileObj := {|
  buffer := string;
  new := "";
  write := fun b d =>
    match d with
    | Py.Text s => Py.Ok (b ++ s)%string
    | Py.Bytes _ =>
        Py.Raise (Py.TypeError "string argument expected, got 'bytes'")
    end;
  getvalue := fun b => Py.Text b
|}.

(** [io.BytesIO], the binary counterpart; the source does not use it. *)
Definition BytesIO : FileObj := {|
  buffer := list byte;
  new := [];
  write := fun b d =>
    match d with
    | Py.Bytes s => Py.Ok (b ++ s)
    | Py.Text _ =>
        Py.Raise (Py.TypeError "a bytes-like object is required, not 'str'")
    end;
  getvalue := fun b => Py.Bytes b
|}.

End io.

(** ** [tf]: summary protocol buffers and the file writer *)

Module tf.

(** [tf.Summary.Image] *)
Record Image : Type := {
  encoded_image_string : Py.data;
  height : nat;
  width : nat
}.

(** [tf.HistogramProto] *)
Record HistogramProto : Type := {
  min : Q;
  max : Q;
  num : nat;
  sum : spec_float;
  sum_squares : spec_float;
  bucket_limit : list Q;
  bucket : list nat
}.

(** The [oneof] of [tf.Summary.Value]. *)
Inductive payload : Type :=
| simple_value (v : spec_float)
| image (i : Image)
| histo (h : HistogramProto).

(** [tf.Summary.Value] *)
Record Value : Type := {
  tag : string;
  content : payload
}.

(** [tf.Summary.Value(tag=tag, simple_value=value)]: the field is a 32-bit
    float, so the Python float is rounded to single precision when it is
    stored. *)
Definition scalar_value (tag : string) (value : Q) : Value :=
  {| tag := tag; content := simple_value (Float32.of_Q value) |}.

(** [tf.Summary] *)
Record Summary : Type := {
  value : list Value
}.

(** The event that [FileWriter.add_summary] builds from a summary and a
    global step. *)
Record Event : Type := {
  step : Z;
  summary : Summary
}.

(** The step of an event is a signed 64-bit field. *)
Definition fits_int64 (n : Z) : Prop := (- 2 ^ 63 <= n < 2 ^ 63)%Z.

(** A call received by the writer. *)
Inductive call : Type :=
| add_summary_call (s : Summary) (global_step : Z)
| flush_call.

(** [tf.summary.FileWriter], seen through the calls made on it, oldest
    first. *)
Definition FileWriter : Type := list call.

Definition add_summary (w : FileWriter) (s : Summary) (global_step : Z)
  : FileWriter :=
  w ++ [add_summary_call s global_step].

Definition flush (w : FileWriter) : FileWriter :=
  w ++ [flush_call].

(** The events appended so far, flushed or not. *)
Fixpoint events (w : FileWriter) : list Event :=
  match w with
  | [] => []
  | add_summary_call s n :: w' => {| step := n; summary := s |} :: events w'
  | flush_call :: w' => events w'
  end.

(** [replay queued file w]: the queue and the event file after the calls
    [w], starting from queue [queued] and file contents [file]. *)
Fixpoint replay (queued file : list Event) (w : FileWriter)
  : list Event * list Event :=
  match w with
  | [] => (queued, file)
  | add_summary_call s n :: w' =>
      replay (queued ++ [{| step := n; summary := s |}]) file w'
  | flush_call :: w' => replay [] (file ++ queued) w'
  end.

(** What a reader of the event file is guaranteed to find: the events
    appended before the last flush. *)
Definition on_disk (w : FileWriter) : list Event := snd (replay [] [] w).

(** The events still waiting for a flush. *)
Definition queued (w : FileWriter) : list Event := fst (replay [] [] w).

(** What the constructor of the writer sees of the file system: whether a
    path is an existing directory, what creating it (with its parents) does,
    none for success or the exception raised, and whether files can be
    created under it. *)
Record filesystem : Type := {
  is_directory : string -> bool;
  make_dirs : string -> option Py.exn;
  writable : string -> bool
}.

(** [tf.summary.FileWriter(logdir, graph)]: the directory is created when it
    does not exist; the event file itself is opened by the first write, not
    by the constructor. *)
Definition summary_FileWriter {Graph : Type} (fs : filesystem)
    (logdir : string) (graph : option Graph) : Py.outcome FileWriter :=
  if is_directory fs logdir then Py.Ok []
  else match make_dirs fs logdir with
       | None => Py.Ok []
       | Some e => Py.Raise e
       end.

End tf.

(** ** The monad of the methods: writer state and exceptions

    The state is the writer held in [self.writer], the only attribute of an
    instance.  An exception leaves the state as it is where it is raised. *)

Definition M (A : Type) : Type :=
  tf.FileWriter -> Py.outcome A * tf.FileWriter.

Definition ret {A} (a : A) : M A := fun w => (Py.Ok a, w).

Definition bind {A B} (c : M A) (k : A -> M B) : M B :=
  fun w =>
    match c w with
    | (Py.Ok a, w') => k a w'
    | (Py.Raise e, w') => (Py.Raise e, w')
    end.

(** A computation that does not touch the writer. *)
Definition pure {A} (c : Py.outcome A) : M A := fun w => (c, w).

(** A call on [self.writer]. *)
Definition on_writer (f : tf.FileWriter -> tf.FileWriter) : M unit :=
  fun w => (Py.Ok tt, f w).

Declare Scope logger_scope.
Delimit Scope logger_scope with logger.
Notation "x <- c ;; k" := (bind c (fun x => k))
  (at level 61, c at next level, right associativity) : logger_scope.
Notation "c ;; k" := (bind c (fun _ => k))
  (at level 61, right associativity) : logger_scope.

(** ** [np]: the parts of numpy that [log_histogram] calls *)

Module np.

Record ndarray : Type := {
  shape : list nat;
  data : list Q
}.

(** [np.array(values)] on a flat list of numbers. *)
Definition array (values : list Q) : ndarray :=
  {| shape := [List.length values]; data := values |}.

(** [np.prod] on a shape tuple. *)
Definition prod (t : list nat) : nat := fold_left Nat.mul t 1%nat.

Definition minimum (x y : Q) : Q := if Qle_bool x y then x else y.
Definition maximum (x y : Q) : Q := if Qle_bool x y then y else x.

(** A reduction without identity: it raises on a zero-size array. *)
Definition reduce (f : Q -> Q -> Q) (name : string) (a : ndarray)
  : Py.outcome Q :=
  match data a with
  | [] => Py.Raise (Py.ValueError
            ("zero-size array to reduction operation " ++ name
             ++ " which has no identity")%string)
  | x :: xs => Py.Ok (fold_left f xs x)
  end.

Definition min (a : ndarray) : Py.outcome Q := reduce minimum "minimum" a.
Definition max (a : ndarray) : Py.outcome Q := reduce maximum "maximum" a.

(** The elements of a [float64] array. *)
Definition float64s (a : ndarray) : list spec_float :=
  map Float64.of_Q (data a).

(** [a ** 2], element by element, each product rounded to [float64]. *)
Definition square (a : ndarray) : list spec_float :=
  map (fun x => Float64.mul x x) (float64s a).

(** One round of the unrolled loop of the pairwise summation: the next
    eight elements are added to the eight accumulators [r]. *)
Fixpoint add_blocks (blocks : nat) (r xs : list spec_float)
  : list spec_float * list spec_float :=
  match blocks with
  | O => (r, xs)
  | S blocks' =>
      add_blocks blocks'
        (map (fun p => Float64.add (fst p) (snd p)) (combine r (firstn 8 xs)))
        (skipn 8 xs)
  end.

(** The sum of 8 to 128 elements: eight accumulators, combined as a tree,
    then the elements left over. *)
Definition sum_unrolled (xs : list spec_float) : spec_float :=
  let n := List.length xs in
  let (r, rest) := add_blocks (n / 8 - 1) (firstn 8 xs) (skipn 8 xs) in
  let r' := fun i => nth i r Float64.zero in
  let res :=
    Float64.add
      (Float64.add (Float64.add (r' 0%nat) (r' 1%nat))
                   (Float64.add (r' 2%nat) (r' 3%nat)))
      (Float64.add (Float64.add (r' 4%nat) (r' 5%nat))
                   (Float64.add (r' 6%nat) (r' 7%nat))) in
  fold_left Float64.add rest res.

(** numpy's pairwise summation: in order below 8 elements, unrolled up to
    128, split in two halves above.  [fuel] bounds the depth of the
    splitting; the number of elements is always enough. *)
Fixpoint pairwise_sum (fuel : nat) (xs : list spec_float) : spec_float :=
  let n := List.length xs in
  if (n <? 8)%nat then fold_left Float64.add xs Float64.zero
  else if (n <=? 128)%nat then sum_unrolled xs
  else
    match fuel with
    | O => sum_unrolled xs
    | S fuel' =>
        let n2 := (n / 2 - (n / 2) mod 8)%nat in
        Float64.add (pairwise_sum fuel' (firstn n2 xs))
                    (pairwise_sum fuel' (skipn n2 xs))
    end.

(** [np.sum] of a [float64] array: zero plus the pairwise sum. *)
Definition sum (xs : list spec_float) : spec_float :=
  Float64.add Float64.zero (pairwise_sum (List.length xs) xs).

Definition Qlt_bool (x y : Q) : bool := negb (Qle_bool y x).

(** The range that [np.histogram] picks when none is given: [(0, 1)] for a
    zero-size array, the extrema otherwise, widened by one half on each side
    when they coincide. *)
Definition outer_edges (a : ndarray) : Q * Q :=
  match data a with
  | [] => (0%Q, 1%Q)
  | x :: xs =>
      let first_edge := fold_left minimum xs x in
      let last_edge := fold_left maximum xs x in
      if Qeq_bool first_edge last_edge
      then (first_edge - (1 # 2), last_edge + (1 # 2))
      else (first_edge, last_edge)
  end.

(** [np.linspace(start, stop, num)] with the end point included. *)
Definition linspace (start stop : Q) (num : nat) : list Q :=
  let div := (num - 1)%nat in
  let step := (stop - start) / inject_Z (Z.of_nat div) in
  map (fun i =>
         if (1 <? num)%nat && (i =? div)%nat then stop
         else start + inject_Z (Z.of_nat i) * step)
      (seq 0 num).

(** Membership in bin [i] of [n]: half-open [[e_i, e_(i+1))], except the
    last bin, which is closed. *)
Definition in_bin (edges : list Q) (n i : nat) (x : Q) : bool :=
  Qle_bool (nth i edges 0%Q) x &&
  (if (S i =? n)%nat then Qle_bool x (nth (S i) edges 0%Q)
   else Qlt_bool x (nth (S i) edges 0%Q)).

Definition count (p : Q -> bool) (l : list Q) : nat :=
  List.length (filter p l).

(** [np.histogram(a, bins=bins)] for an integer [bins], as numpy documents
    it: [bins] equal-width bins over the range above, every bin half-open
    except the last; the result is the counts per bin and the [bins + 1]
    edges. *)
Definition histogram (a : ndarray) (bins : Z)
  : Py.outcome (list nat * list Q) :=
  if (bins <? 1)%Z
  then Py.Raise (Py.ValueError "`bins` must be positive, when an integer")
  else
    let n := Z.to_nat bins in
    let (first_edge, last_edge) := outer_edges a in
    let bin_edges := linspace first_edge last_edge (S n) in
    Py.Ok (map (fun i => count (in_bin bin_edges n i) (data a)) (seq 0 n),
           bin_edges).

End np.

(** ** [plt]: saving an image to a file object *)

Module plt.

(** [plt.imsave(fname, arr, format='png')] on a file object: the array is
    encoded by [png], and the encoding, which is [bytes], is written to
    [fname]. *)
Definition imsave (png : np.ndarray -> Py.outcome (list byte))
    (F : io.FileObj) (fname : io.buffer F) (arr : np.ndarray)
  : Py.outcome (io.buffer F) :=
  (b <- png arr ;; io.write F fname (Py.Bytes b))%py.

End plt.

(** ** The [Logger] class *)

Module Logger.

Section Collaborators.

(** The graph object that the constructor passes through. *)
Variable Graph : Type.

(** The PNG encoder behind [plt.imsave]. *)
Variable png : np.ndarray -> Py.outcome (list byte).

(** The attributes of an instance. *)
Record t : Type := { writer : tf.FileWriter }.

Definition __init__ (fs : tf.filesystem) (log_dir : string)
    (graph : option Graph) : Py.outcome t :=
  (w <- tf.summary_FileWriter fs log_dir graph ;; Py.Ok {| writer := w |})%py.

Definition flush : M unit := on_writer tf.flush.

Definition add_summary (summary : tf.Summary) (step : Z) : M unit :=
  (on_writer (fun w => tf.add_summary w summary step) ;;
   flush)%logger.

Definition log_scalar (tag : string) (value : Q) (step : Z) : M unit :=
  (let summary := {| tf.value := [tf.scalar_value tag value] |} in
   on_writer (fun w => tf.add_summary w summary step) ;;
   flush)%logger.

Section Images.

(** The class that the module binds to the name [StringIO]. *)
Variable StringIO : io.FileObj.

(** ['%s/%d' % (tag, nr)] *)
Definition image_tag (tag : string) (nr : nat) : string :=
  (tag ++ "/" ++ Py.str_of_nat nr)%string.

(** The body of the loop, for the image [img] at position [nr]. *)
Definition image_value (tag : string) (nr : nat) (img : np.ndarray)
  : Py.outcome tf.Value :=
  (let s := io.new StringIO in
   s <- plt.imsave png StringIO s img ;;
   let encoded := io.getvalue StringIO s in
   h <- Py.tuple_index (np.shape img) 0 ;;
   w <- Py.tuple_index (np.shape img) 1 ;;
   let img_sum := {| tf.encoded_image_string := encoded;
                     tf.height := h;
                     tf.width := w |} in
   Py.Ok {| tf.tag := image_tag tag nr;
            tf.content := tf.image img_sum |})%py.

(** The loop over [enumerate(images)], from position [nr] on, with
    [im_summaries] as collected so far. *)
Fixpoint image_loop (tag : string) (nr : nat) (images : list np.ndarray)
    (im_summaries : list tf.Value) : Py.outcome (list tf.Value) :=
  match images with
  | [] => Py.Ok im_summaries
  | img :: rest =>
      (v <- image_value tag nr img ;;
       image_loop tag (S nr) rest (im_summaries ++ [v]))%py
  end.

Definition log_images_with (tag : string) (images : list np.ndarray)
    (step : Z) : M unit :=
  (im_summaries <- pure (image_loop tag 0 images []) ;;
   let summary := {| tf.value := im_summaries |} in
   on_writer (fun w => tf.add_summary w summary step))%logger.

End Images.

(** [log_images] with [StringIO] as imported: [from io import StringIO]. *)
Definition log_images : string -> list np.ndarray -> Z -> M unit :=
  log_images_with io.StringIO.

(** [for x in xs: field.append(x)] on a repeated field. *)
Definition append_all {A} (field xs : list A) : list A :=
  fold_left (fun acc x => acc ++ [x]) xs field.

(** Lines 78 to 101 of [log_histogram]: from the samples to the filled
    [tf.HistogramProto]. *)
Definition histogram_proto (values : list Q) (bins : Z)
  : Py.outcome tf.HistogramProto :=
  (let values := np.array values in
   r <- np.histogram values bins ;;
   let counts := fst r in
   let bin_edges := snd r in
   mn <- np.min values ;;
   mx <- np.max values ;;
   let bin_edges := skipn 1 bin_edges in
   Py.Ok {| tf.min := mn;
            tf.max := mx;
            tf.num := np.prod (np.shape values);
            tf.sum := np.sum (np.float64s values);
            tf.sum_squares := np.sum (np.square values);
            tf.bucket_limit := append_all [] bin_edges;
            tf.bucket := append_all [] counts |})%py.

Definition log_histogram (tag : string) (values : list Q) (step : Z)
    (bins : Z) : M unit :=
  (hist <- pure (histogram_proto values bins) ;;
   let summary :=
     {| tf.value := [{| tf.tag := tag; tf.content := tf.histo hist |}] |} in
   on_writer (fun w => tf.add_summary w summary step) ;;
   flush)%logger.


End Collaborators.

End Logger.

(** ** The contract, in the words of the specification

    These definitions follow the specification, not the code; the theorems
    compare them with what the code computes. *)

Module Spec.

(** The sub-record for the image at position [nr] of a batch logged under
    [tag]: tagged ["{tag}/{nr}"], it wraps the PNG encoding [encoded] with
    the height and the width of the image. *)
Definition image_record (tag : string) (nr : nat) (img : np.ndarray)
    (encoded : list byte) : tf.Value :=
  {| tf.tag := (tag ++ "/" ++ Py.str_of_nat nr)%string;
     tf.content :=
       tf.image {| tf.encoded_image_string := Py.Bytes encoded;
                   tf.height := nth 0 (np.shape img) 0%nat;
                   tf.width := nth 1 (np.shape img) 0%nat |} |}.

(** An image as the data model has it: at least height and width. *)
Definition has_height_and_width (img : np.ndarray) : Prop :=
  (2 <= List.length (np.shape img))%nat.



(** [m] is the least, respectively the greatest, of the samples. *)
Definition is_min (m : Q) (xs : list Q) : Prop :=
  In m xs /\ forall x, In x xs -> m <= x.

Definition is_max (m : Q) (xs : list Q) : Prop :=
  In m xs /\ forall x, In x xs -> x <= m.





(** The call turned writer [w] into [w'] by appending one record tagged
    [tag] at [step] with histogram [h], and flushing. *)
Definition wrote_histogram (w w' : tf.FileWriter) (tag : string) (step : Z)
    (h : tf.HistogramProto) : Prop :=
  w' = w ++ [tf.add_summary_call
               {| tf.value := [{| tf.tag := tag;
                                  tf.content := tf.histo h |}] |} step;
             tf.flush_call].

(** Writer [w'] continues writer [w] without rewriting anything: the
    records appended by [w] are the first records appended by [w'], at most
    one record is new, and what [w] had put in the event file is the
    beginning of what [w'] has put there. *)
Definition append_only (w w' : tf.FileWriter) : Prop :=
  (exists new, tf.events w' = tf.events w ++ new /\
               (List.length new <= 1)%nat) /\
  (exists more, tf.on_disk w' = tf.on_disk w ++ more).

(** The record [r] carries the scalar [value] itself, under [tag] and at
    [step]. *)
Definition carries_scalar (r : tf.Event) (tag : string) (step : Z)
    (value : Q) : Prop :=
  tf.step r = step /\
  exists v q,
    tf.summary r =
      {| tf.value := [{| tf.tag := tag;
                         tf.content := tf.simple_value v |}] |} /\
    Float.to_Q v = Some q /\ q == value.




(** A path under which no file can be created. *)
Definition unwritable (fs : tf.filesystem) (path : string) : Prop :=
  tf.writable fs path = false.

End Spec.

(** ** Inputs used to exercise the theorems *)

Module Samples.

(** A stand-in encoder: the PNG signature for an array with at least two
    dimensions, an error otherwise. *)
Definition png (a : np.ndarray) : Py.outcome (list byte) :=
  if (2 <=? List.length (np.shape a))%nat
  then Py.Ok [x89; x50; x4e; x47; x0d; x0a; x1a; x0a]
  else Py.Raise (Py.ValueError "Image must be 2D or 3D")%string.

(** A 1 x 1 RGB image. *)
Definition pixel : np.ndarray :=
  {| np.shape := [1; 1; 3]%nat; np.data := [0; 0; 0]%Q |}.

(** A one-dimensional array: no width. *)
Definition row : np.ndarray :=
  {| np.shape := [3]%nat; np.data := [0; 0; 0]%Q |}.

(** A file system with the existing directories [/proc], where nothing can
    be created, and [/tmp], where everything can. *)
Definition fs : tf.filesystem :=
  {| tf.is_directory := fun path =>
       String.eqb path "/proc" || String.eqb path "/tmp";
     tf.make_dirs := fun path =>
       if String.prefix "/tmp/" path then None
       else Some (Py.OtherError "PermissionDeniedError");
     tf.writable := fun path => String.prefix "/tmp" path |}.

(** The Python floats [0.1], [0.2] and [0.3], by their exact values. *)
Definition tenth : Q := 3602879701896397 # 36028797018963968.
Definition fifth : Q := 3602879701896397 # 18014398509481984.

End Samples.

(** * Properties *)

(** ** The writer *)

Lemma replay_app queued file w1 w2 :
  tf.replay queued file (w1 ++ w2) =
  tf.replay (fst (tf.replay queued file w1)) (snd (tf.replay queued file w1)) w2.
Proof.
  revert queued file.
  induction w1 as [| c w1 IH]; intros queued file; simpl; [reflexivity |].
  destruct c; apply IH.
Qed.

Lemma replay_events queued file w :
  snd (tf.replay queued file w) ++ fst (tf.replay queued file w) =
  file ++ queued ++ tf.events w.
Proof.
  revert queued file.
  induction w as [| c w IH]; intros queued file; simpl.
  - now rewrite app_nil_r.
  - destruct c as [s n |]; rewrite IH; simpl.
    + now rewrite <- app_assoc.
    + now rewrite <- app_assoc.
Qed.

Lemma events_app w1 w2 : tf.events (w1 ++ w2) = tf.events w1 ++ tf.events w2.
Proof.
  induction w1 as [| c w1 IH]; simpl; [reflexivity |].
  destruct c; simpl; now rewrite IH.
Qed.

(** After a flush, everything appended so far is in the event file. *)
Lemma on_disk_flush w : tf.on_disk (tf.flush w) = tf.events w.
Proof.
  unfold tf.on_disk, tf.flush.
  rewrite replay_app; simpl.
  apply (replay_events [] [] w).
Qed.

Lemma queued_flush w : tf.queued (tf.flush w) = [].
Proof.
  unfold tf.queued, tf.flush. now rewrite replay_app.
Qed.

(** An append changes nothing in the event file. *)
Lemma on_disk_add_summary w s n :
  tf.on_disk (tf.add_summary w s n) = tf.on_disk w.
Proof.
  unfold tf.on_disk, tf.add_summary. now rewrite replay_app.
Qed.

Lemma append_all_app {A} (xs field : list A) :
  Logger.append_all field xs = field ++ xs.
Proof.
  unfold Logger.append_all. revert field.
  induction xs as [| x xs IH]; intros field; simpl.
  - now rewrite app_nil_r.
  - rewrite IH. now rewrite <- app_assoc.
Qed.

(** ** [log_scalar] *)

(** C1, as amended: for a step in the signed 64-bit range, [log_scalar]
    returns normally and appends exactly one record to the sink; the record
    carries the given tag, the given step, and the given value rounded to
    single precision as its scalar payload; after the call a reader of the
    event file finds it. *)
Theorem log_scalar_appends_one_record (tag : string) (value : Q) (step : Z)
    (w : tf.FileWriter) :
  tf.fits_int64 step ->
  let record :=
    {| tf.step := step;
       tf.summary :=
         {| tf.value :=
              [{| tf.tag := tag;
                  tf.content := tf.simple_value (Float32.of_Q value) |}] |} |}
  in
  exists w',
    Logger.log_scalar tag value step w = (Py.Ok tt, w') /\
    tf.events w' = tf.events w ++ [record] /\
    tf.on_disk w' = tf.events w ++ [record].
Proof.
  intros _ record. eexists. split; [reflexivity |].
  split.
  - unfold tf.flush, tf.add_summary. rewrite !events_app. simpl.
    now rewrite app_nil_r.
  - rewrite on_disk_flush. unfold tf.add_summary. now rewrite events_app.
Qed.

Lemma log_scalar_appends_one_record_witness :
  tf.fits_int64 3 /\
  exists w',
    Logger.log_scalar "loss" Samples.tenth 3 [] = (Py.Ok tt, w') /\
    tf.events w' =
      [{| tf.step := 3;
          tf.summary :=
            {| tf.value :=
                 [{| tf.tag := "loss";
                     tf.content :=
                       tf.simple_value (Float32.of_Q Samples.tenth) |}] |} |}]
    /\
    tf.on_disk w' =
      [{| tf.step := 3;
          tf.summary :=
            {| tf.value :=
                 [{| tf.tag := "loss";
                     tf.content :=
                       tf.simple_value (Float32.of_Q Samples.tenth) |}] |} |}].
Proof.
  assert (H : tf.fits_int64 3) by (unfold tf.fits_int64; simpl; lia).
  split; [exact H |].
  exact (log_scalar_appends_one_record "loss" Samples.tenth 3%Z [] H).
Defined.

(** Single precision keeps [0.5] and turns the Python float [0.1] into
    [13421773 / 2^27], that is [0.100000001490116...]. *)
Example single_of_half :
  option_map Qred (Float.to_Q (Float32.of_Q (1 # 2))) = Some (1 # 2).
Proof. reflexivity. Qed.

Example single_of_tenth :
  option_map Qred (Float.to_Q (Float32.of_Q Samples.tenth)) =
  Some (13421773 # 134217728).
Proof. vm_compute. reflexivity. Qed.

(** C1, as first stated, fails on a value that single precision cannot
    represent: [16777217] is logged as [16777216]. *)
Lemma log_scalar_value_not_exact :
  ~ exists w' r,
      Logger.log_scalar "loss" (16777217 # 1) 0 [] = (Py.Ok tt, w') /\
      tf.events w' = [r] /\
      Spec.carries_scalar r "loss" 0 (16777217 # 1).
Proof.
  intros (w' & r & Hrun & Hev & _ & v & q & Hsum & Hq & Heq).
  vm_compute in Hrun. injection Hrun as <-.
  vm_compute in Hev. injection Hev as <-.
  simpl in Hsum. injection Hsum as <-.
  vm_compute in Hq. injection Hq as <-.
  vm_compute in Heq. discriminate Heq.
Qed.

(** ** The constructor *)

(** C9, as amended: the constructor raises exactly when [log_dir] is not an
    existing directory and creating it raises; the exception is that of the
    writer, unchanged, and no instance exists on which a log method could be
    called.  On an existing directory it returns an instance with a fresh
    writer, whether or not files can be created there. *)
Theorem init_fails_iff_directory_cannot_be_made (Graph : Type)
    (fs : tf.filesystem) (log_dir : string) (graph : option Graph) :
  (forall e,
     Logger.__init__ Graph fs log_dir graph = Py.Raise e <->
     tf.is_directory fs log_dir = false /\ tf.make_dirs fs log_dir = Some e) /\
  (tf.is_directory fs log_dir = true ->
   Logger.__init__ Graph fs log_dir graph =
     Py.Ok {| Logger.writer := [] |}).
Proof.
  unfold Logger.__init__, tf.summary_FileWriter.
  destruct (tf.is_directory fs log_dir); simpl.
  - split; [| reflexivity].
    intros e. split; [discriminate | intros [H _]; discriminate H].
  - split; [| discriminate].
    intros e. destruct (tf.make_dirs fs log_dir) as [e' |]; simpl.
    + split; [intros H; injection H as ->; now split |].
      intros [_ H]. now injection H as ->.
    + split; [discriminate | intros [_ H]; discriminate H].
Qed.

Lemma init_fails_iff_directory_cannot_be_made_witness :
  (tf.is_directory Samples.fs "/proc/logs" = false /\
   tf.make_dirs Samples.fs "/proc/logs" =
     Some (Py.OtherError "PermissionDeniedError")) /\
  Logger.__init__ unit Samples.fs "/proc/logs" None =
    Py.Raise (Py.OtherError "PermissionDeniedError") /\
  tf.is_directory Samples.fs "/tmp" = true /\
  Logger.__init__ unit Samples.fs "/tmp" None =
    Py.Ok {| Logger.writer := [] |}.
Proof.
  assert (H : tf.is_directory Samples.fs "/proc/logs" = false /\
              tf.make_dirs Samples.fs "/proc/logs" =
                Some (Py.OtherError "PermissionDeniedError"))
    by (split; reflexivity).
  split; [exact H |]. split.
  - apply (proj1 (init_fails_iff_directory_cannot_be_made unit Samples.fs
                    "/proc/logs" None)). exact H.
  - split; [reflexivity |].
    apply (proj2 (init_fails_iff_directory_cannot_be_made unit Samples.fs
                    "/tmp" None)). reflexivity.
Defined.

(** C9, as first stated, fails on an existing directory in which nothing
    can be created: the constructor returns an instance. *)
Lemma init_returns_on_unwritable_directory :
  ~ (Spec.unwritable Samples.fs "/proc" ->
     exists e, Logger.__init__ unit Samples.fs "/proc" None = Py.Raise e).
Proof.
  intros H. destruct (H eq_refl) as [e He]. discriminate He.
Qed.

(** ** [log_images] *)

Section ImageLoop.

Variable png : np.ndarray -> Py.outcome (list byte).
Variable F : io.FileObj.

(** An iteration that completes has read [img.shape[0]] and
    [img.shape[1]]. *)
Lemma image_value_dims tag nr img v :
  Logger.image_value png F tag nr img = Py.Ok v ->
  (2 <= List.length (np.shape img))%nat.
Proof.
  unfold Logger.image_value, plt.imsave.
  destruct (png img) as [b | e]; simpl; [| easy].
  destruct (io.write F (io.new F) (Py.Bytes b)) as [s | e]; simpl; [| easy].
  destruct (np.shape img) as [| h [| wd dims]]; simpl; [easy | easy |].
  intros _. lia.
Qed.

(** The loop stops at the first iteration that raises. *)
Lemma image_loop_malformed tag images :
  Exists (fun img => (List.length (np.shape img) < 2)%nat) images ->
  forall nr acc,
    exists e, Logger.image_loop png F tag nr images acc = Py.Raise e.
Proof.
  induction images as [| img rest IH]; intros Hbad nr acc.
  - inversion Hbad.
  - simpl. destruct (Logger.image_value png F tag nr img) as [v | e] eqn:Hv;
      simpl; [| now exists e].
    apply Exists_cons in Hbad. destruct Hbad as [Hhd | Htl].
    + apply image_value_dims in Hv. lia.
    + now apply IH.
Qed.

Lemma log_images_with_raise tag images step w e :
  Logger.image_loop png F tag 0 images [] = Py.Raise e ->
  Logger.log_images_with png F tag images step w = (Py.Raise e, w).
Proof.
  intros H. unfold Logger.log_images_with, bind, pure. now rewrite H.
Qed.

Lemma log_images_with_return tag images step w vs :
  Logger.image_loop png F tag 0 images [] = Py.Ok vs ->
  Logger.log_images_with png F tag images step w =
    (Py.Ok tt, w ++ [tf.add_summary_call {| tf.value := vs |} step]).
Proof.
  intros H. unfold Logger.log_images_with, bind, pure. now rewrite H.
Qed.

(** Whatever the file-object class, a call that raises leaves the writer as
    it was. *)
Lemma log_images_with_atomic tag images step w e w' :
  Logger.log_images_with png F tag images step w = (Py.Raise e, w') ->
  w' = w.
Proof.
  unfold Logger.log_images_with, bind, pure.
  destruct (Logger.image_loop png F tag 0 images []); simpl;
    intros H; inversion H; reflexivity.
Qed.

(** Whatever the file-object class, a batch with an array of fewer than two
    dimensions makes the call raise. *)
Lemma log_images_with_malformed tag images step w :
  Exists (fun img => (List.length (np.shape img) < 2)%nat) images ->
  exists e, Logger.log_images_with png F tag images step w = (Py.Raise e, w).
Proof.
  intros Hbad.
  destruct (image_loop_malformed tag images Hbad 0%nat []) as [e He].
  exists e. now apply log_images_with_raise.
Qed.

End ImageLoop.

(** With [io.StringIO] the first iteration always raises: either the encoder
    does, or the buffer refuses the encoded bytes. *)
Lemma image_loop_StringIO_raises png tag nr img rest acc :
  exists e,
    Logger.image_loop png io.StringIO tag nr (img :: rest) acc = Py.Raise e.
Proof.
  simpl. unfold Logger.image_value, plt.imsave.
  destruct (png img) as [b | e]; simpl; eexists; reflexivity.
Qed.

(** C2: on a batch whose first image the encoder accepts, [log_images] raises
    [TypeError] at [plt.imsave], because the buffer is an [io.StringIO] and
    the encoding is [bytes]; no sub-record is built and nothing is appended. *)
Theorem log_images_text_buffer_rejects_png
    (png : np.ndarray -> Py.outcome (list byte)) (tag : string)
    (img : np.ndarray) (rest : list np.ndarray) (step : Z)
    (w : tf.FileWriter) (b : list byte) :
  png img = Py.Ok b ->
  Logger.log_images png tag (img :: rest) step w =
    (Py.Raise (Py.TypeError "string argument expected, got 'bytes'"), w).
Proof.
  intros Hpng. apply log_images_with_raise.
  simpl. unfold Logger.image_value, plt.imsave. now rewrite Hpng.
Qed.

Lemma log_images_text_buffer_rejects_png_witness :
  Samples.png Samples.pixel = Py.Ok [x89; x50; x4e; x47; x0d; x0a; x1a; x0a] /\
  Logger.log_images Samples.png "img" [Samples.pixel] 0 [] =
    (Py.Raise (Py.TypeError "string argument expected, got 'bytes'"), []).
Proof.
  split; [reflexivity |].
  apply (log_images_text_buffer_rejects_png Samples.png "img" Samples.pixel []
           0%Z [] [x89; x50; x4e; x47; x0d; x0a; x1a; x0a]).
  reflexivity.
Defined.

(** C8: a batch that contains an array with fewer than two dimensions makes
    [log_images] raise; the exception reaches the caller. *)
Theorem log_images_malformed_raises
    (png : np.ndarray -> Py.outcome (list byte)) (tag : string)
    (images : list np.ndarray) (step : Z) (w : tf.FileWriter) :
  Exists (fun img => (List.length (np.shape img) < 2)%nat) images ->
  exists e, Logger.log_images png tag images step w = (Py.Raise e, w).
Proof.
  apply log_images_with_malformed.
Qed.

Lemma log_images_malformed_raises_witness :
  Exists (fun img => (List.length (np.shape img) < 2)%nat)
    [Samples.pixel; Samples.row] /\
  exists e,
    Logger.log_images Samples.png "img" [Samples.pixel; Samples.row] 7 [] =
      (Py.Raise e, []).
Proof.
  assert (H : Exists (fun img => (List.length (np.shape img) < 2)%nat)
                [Samples.pixel; Samples.row]).
  { apply Exists_cons_tl, Exists_cons_hd. simpl. lia. }
  split; [exact H |].
  exact (log_images_malformed_raises Samples.png "img"
           [Samples.pixel; Samples.row] 7%Z [] H).
Defined.

(** C10: when [log_images] raises, the writer has received no call: the
    append comes after the loop over the whole batch. *)
Theorem log_images_atomic
    (png : np.ndarray -> Py.outcome (list byte)) (tag : string)
    (images : list np.ndarray) (step : Z) (w w' : tf.FileWriter)
    (e : Py.exn) :
  Logger.log_images png tag images step w = (Py.Raise e, w') ->
  w' = w /\ tf.events w' = tf.events w.
Proof.
  intros H. apply log_images_with_atomic in H. now subst.
Qed.

Lemma log_images_atomic_witness :
  Logger.log_images Samples.png "img" [Samples.row] 7
      [tf.add_summary_call {| tf.value := [] |} 6] =
    (Py.Raise (Py.ValueError "Image must be 2D or 3D"),
     [tf.add_summary_call {| tf.value := [] |} 6]) /\
  tf.events [tf.add_summary_call {| tf.value := [] |} 6] =
    tf.events [tf.add_summary_call {| tf.value := [] |} 6].
Proof.
  split; [reflexivity |].
  apply (log_images_atomic Samples.png "img" [Samples.row] 7%Z
           [tf.add_summary_call {| tf.value := [] |} 6]
           [tf.add_summary_call {| tf.value := [] |} 6]
           (Py.ValueError "Image must be 2D or 3D")).
  reflexivity.
Defined.

(** What the loop builds when the buffer class takes [bytes], as
    [io.BytesIO] does: one sub-record per image, in order, tagged with the
    position of the image. *)
Lemma image_loop_BytesIO png tag images :
  Forall (fun img => Spec.has_height_and_width img /\
                     exists b, png img = Py.Ok b) images ->
  forall nr acc,
  exists vs,
    Logger.image_loop png io.BytesIO tag nr images acc = Py.Ok (acc ++ vs) /\
    List.length vs = List.length images /\
    forall i img, nth_error images i = Some img ->
      exists b, png img = Py.Ok b /\
        nth_error vs i = Some (Spec.image_record tag (nr + i) img b).
Proof.
  induction images as [| img rest IH]; intros Hok nr acc.
  - exists []. rewrite app_nil_r.
    split; [reflexivity | split; [reflexivity |]].
    intros [| i] img H; discriminate H.
  - inversion Hok as [| ? ? [Hdims [b Hb]] Hrest]; subst.
    assert (Hv : Logger.image_value png io.BytesIO tag nr img =
                 Py.Ok (Spec.image_record tag nr img b)).
    { unfold Logger.image_value, plt.imsave, Spec.image_record.
      rewrite Hb. simpl.
      unfold Spec.has_height_and_width in Hdims.
      destruct (np.shape img) as [| h [| wd dims]]; simpl in *; [lia | lia |].
      reflexivity. }
    destruct (IH Hrest (S nr) (acc ++ [Spec.image_record tag nr img b]))
      as [vs [Hloop [Hlen Hnth]]].
    exists (Spec.image_record tag nr img b :: vs).
    simpl. rewrite Hv. simpl. rewrite Hloop, <- app_assoc. simpl.
    split; [reflexivity | split; [now rewrite Hlen |]].
    intros [| i] img' Hi; simpl in Hi.
    + injection Hi as <-. exists b. now rewrite Nat.add_0_r.
    + destruct (Hnth i img' Hi) as [b' [Hb' Hvs]].
      exists b'. split; [exact Hb' |]. simpl.
      now rewrite Nat.add_succ_r.
Qed.

(** With a buffer class that takes [bytes], [log_images] does what the
    specification describes: [N] sub-records tagged ["{tag}/0"] to
    ["{tag}/N-1"], in one append. *)
Lemma log_images_with_BytesIO png tag images step w :
  Forall (fun img => Spec.has_height_and_width img /\
                     exists b, png img = Py.Ok b) images ->
  exists vs,
    Logger.log_images_with png io.BytesIO tag images step w =
      (Py.Ok tt, w ++ [tf.add_summary_call {| tf.value := vs |} step]) /\
    List.length vs = List.length images /\
    forall i img, nth_error images i = Some img ->
      exists b, png img = Py.Ok b /\
        nth_error vs i = Some (Spec.image_record tag i img b).
Proof.
  intros Hok.
  destruct (image_loop_BytesIO png tag images Hok 0%nat []) as [vs [H1 [H2 H3]]].
  exists vs. split; [| split; assumption].
  now apply log_images_with_return.
Qed.

(** ** numpy reductions *)

Lemma Qle_bool_false x y : Qle_bool x y = false -> y <= x.
Proof.
  intros H. destruct (Qlt_le_dec y x) as [Hlt | Hle].
  - now apply Qlt_le_weak.
  - apply Qle_bool_iff in Hle. congruence.
Qed.

Lemma minimum_props x y :
  (np.minimum x y = x \/ np.minimum x y = y) /\
  np.minimum x y <= x /\ np.minimum x y <= y.
Proof.
  unfold np.minimum. destruct (Qle_bool x y) eqn:H.
  - apply Qle_bool_iff in H. repeat split; [now left | apply Qle_refl | exact H].
  - apply Qle_bool_false in H.
    repeat split; [now right | exact H | apply Qle_refl].
Qed.

Lemma maximum_props x y :
  (np.maximum x y = x \/ np.maximum x y = y) /\
  x <= np.maximum x y /\ y <= np.maximum x y.
Proof.
  unfold np.maximum. destruct (Qle_bool x y) eqn:H.
  - apply Qle_bool_iff in H. repeat split; [now right | exact H | apply Qle_refl].
  - apply Qle_bool_false in H.
    repeat split; [now left | apply Qle_refl | exact H].
Qed.

Lemma fold_minimum_is_min xs : forall x,
  Spec.is_min (fold_left np.minimum xs x) (x :: xs).
Proof.
  induction xs as [| y ys IH]; intros x; simpl.
  - split; [now left |]. intros z [<- | []]. apply Qle_refl.
  - destruct (minimum_props x y) as [Hor [Hx Hy]].
    destruct (IH (np.minimum x y)) as [Hin Hle].
    revert Hor Hx Hy Hin Hle. generalize (np.minimum x y) as m.
    intros m Hor Hx Hy Hin Hle.
    assert (Hm : fold_left np.minimum ys m <= m) by (apply Hle; now left).
    split.
    + destruct Hin as [Heq | Hin]; [| right; right; exact Hin].
      destruct Hor as [-> | ->]; [left | right; left]; exact Heq.
    + intros z [<- | [<- | Hz]].
      * eapply Qle_trans; eassumption.
      * eapply Qle_trans; eassumption.
      * apply Hle. now right.
Qed.

Lemma fold_maximum_is_max xs : forall x,
  Spec.is_max (fold_left np.maximum xs x) (x :: xs).
Proof.
  induction xs as [| y ys IH]; intros x; simpl.
  - split; [now left |]. intros z [<- | []]. apply Qle_refl.
  - destruct (maximum_props x y) as [Hor [Hx Hy]].
    destruct (IH (np.maximum x y)) as [Hin Hle].
    revert Hor Hx Hy Hin Hle. generalize (np.maximum x y) as m.
    intros m Hor Hx Hy Hin Hle.
    assert (Hm : m <= fold_left np.maximum ys m) by (apply Hle; now left).
    split.
    + destruct Hin as [Heq | Hin]; [| right; right; exact Hin].
      destruct Hor as [-> | ->]; [left | right; left]; exact Heq.
    + intros z [<- | [<- | Hz]].
      * eapply Qle_trans; eassumption.
      * eapply Qle_trans; eassumption.
      * apply Hle. now right.
Qed.


(** ** Counting samples per bin *)

Lemma count_cons p x l :
  np.count p (x :: l) = (Nat.b2n (p x) + np.count p l)%nat.
Proof.
  unfold np.count. simpl. now destruct (p x).
Qed.

Lemma list_sum_map_add {A} (f g : A -> nat) l :
  list_sum (map (fun i => f i + g i)%nat l) =
  (list_sum (map f l) + list_sum (map g l))%nat.
Proof.
  induction l as [| a l IH]; simpl; [reflexivity | lia].
Qed.

(** If every sample falls into exactly one of the bins [idx], the counts add
    up to the number of samples. *)
Lemma counts_of_partition (p : nat -> Q -> bool) idx l :
  (forall x, In x l -> list_sum (map (fun i => Nat.b2n (p i x)) idx) = 1%nat) ->
  list_sum (map (fun i => np.count (p i) l) idx) = List.length l.
Proof.
  induction l as [| x l IH]; intros Hone.
  - clear Hone. simpl.
    induction idx as [| i idx IHi]; simpl; [reflexivity | exact IHi].
  - rewrite (map_ext _ (fun i => Nat.b2n (p i x) + np.count (p i) l)%nat)
      by (intros i; apply count_cons).
    rewrite list_sum_map_add, Hone by now left.
    rewrite IH; [reflexivity |].
    intros y Hy. apply Hone. now right.
Qed.

Section Cover.

Variable e : nat -> Q.
Variable x : Q.

(** Among the first [m] half-open intervals of a non-decreasing sequence
    of edges, [x] lies in one if it is below [e m], in none otherwise. *)
Lemma half_open_cover m :
  (forall i, (i < m)%nat -> e i <= e (S i)) ->
  e 0%nat <= x ->
  list_sum (map (fun i => Nat.b2n (Qle_bool (e i) x &&
                                   np.Qlt_bool x (e (S i)))) (seq 0 m)) =
  Nat.b2n (np.Qlt_bool x (e m)).
Proof.
  intros Hmono H0. induction m as [| m IH].
  - simpl. unfold np.Qlt_bool.
    apply Qle_bool_iff in H0. now rewrite H0.
  - rewrite seq_S, map_app, list_sum_app, IH by (intros; apply Hmono; lia).
    simpl. unfold np.Qlt_bool.
    destruct (Qle_bool (e m) x) eqn:Ha; simpl; [lia |].
    destruct (Qle_bool (e (S m)) x) eqn:Hb; simpl; [| reflexivity].
    apply Qle_bool_iff in Hb.
    assert (Hc : e m <= x).
    { apply Qle_trans with (e (S m)); [apply Hmono; lia | exact Hb]. }
    apply Qle_bool_iff in Hc. congruence.
Qed.

(** With the last interval closed, every [x] between the first and the
    last edge lies in exactly one interval. *)
Lemma closed_cover m :
  (forall i, (i < S m)%nat -> e i <= e (S i)) ->
  e 0%nat <= x -> x <= e (S m) ->
  list_sum
    (map (fun i => Nat.b2n
            (Qle_bool (e i) x &&
             (if (S i =? S m)%nat then Qle_bool x (e (S i))
              else np.Qlt_bool x (e (S i))))) (seq 0 (S m))) = 1%nat.
Proof.
  intros Hmono H0 Hlast.
  rewrite seq_S, map_app, list_sum_app.
  rewrite (map_ext_in _
             (fun i => Nat.b2n (Qle_bool (e i) x && np.Qlt_bool x (e (S i))))).
  - rewrite half_open_cover by (auto; intros; apply Hmono; lia).
    simpl. rewrite Nat.eqb_refl. unfold np.Qlt_bool.
    apply Qle_bool_iff in Hlast. rewrite Hlast.
    destruct (Qle_bool (e m) x); reflexivity.
  - intros i Hi. apply in_seq in Hi.
    replace (S i =? S m)%nat with false; [reflexivity |].
    symmetry. apply Nat.eqb_neq. lia.
Qed.

End Cover.

(** ** Bin edges *)

Lemma nth_linspace first last n i :
  (1 <= n)%nat -> (i <= n)%nat ->
  nth i (np.linspace first last (S n)) 0 =
  if (i =? n)%nat then last
  else first + inject_Z (Z.of_nat i) * ((last - first) / inject_Z (Z.of_nat n)).
Proof.
  intros Hn Hi. unfold np.linspace.
  replace (S n - 1)%nat with n by lia.
  replace (1 <? S n)%nat with true by (symmetry; apply Nat.ltb_lt; lia).
  set (f := fun i : nat => if true && (i =? n)%nat then last else _).
  rewrite (nth_indep _ 0 (f 0%nat)) by (rewrite length_map, length_seq; lia).
  rewrite map_nth, seq_nth by lia.
  reflexivity.
Qed.


Lemma inject_Z_of_nat_S i :
  inject_Z (Z.of_nat (S i)) == inject_Z (Z.of_nat i) + 1.
Proof.
  rewrite Nat2Z.inj_succ. unfold Z.succ. rewrite inject_Z_plus. reflexivity.
Qed.

Lemma inject_Z_of_nat_pos n : (1 <= n)%nat -> 0 < inject_Z (Z.of_nat n).
Proof.
  intros Hn. change 0 with (inject_Z 0). rewrite <- Zlt_Qlt. lia.
Qed.

(** The end point closes the sequence: [n] steps lead from [first] to
    [last]. *)
Lemma edge_last first last n :
  (1 <= n)%nat ->
  first + inject_Z (Z.of_nat n) * ((last - first) / inject_Z (Z.of_nat n))
  == last.
Proof.
  intros Hn. pose proof (inject_Z_of_nat_pos n Hn) as Hpos.
  rewrite Qmult_div_r; [ring |].
  intros H0. rewrite H0 in Hpos. now apply Qlt_irrefl in Hpos.
Qed.

Lemma linspace_mono first last n i :
  first <= last -> (i < n)%nat ->
  nth i (np.linspace first last (S n)) 0 <=
  nth (S i) (np.linspace first last (S n)) 0.
Proof.
  intros Hle Hi.
  rewrite !nth_linspace by lia.
  replace (i =? n)%nat with false by (symmetry; apply Nat.eqb_neq; lia).
  pose proof (inject_Z_of_nat_pos n ltac:(lia)) as Hpos.
  set (N := inject_Z (Z.of_nat n)) in *.
  set (w := (last - first) / N).
  assert (Hw : 0 <= w).
  { unfold w. apply Qle_shift_div_l; [exact Hpos | lra]. }
  pose proof (inject_Z_of_nat_S i) as HS.
  destruct (S i =? n)%nat eqn:E.
  - apply Nat.eqb_eq in E.
    pose proof (edge_last first last n ltac:(lia)) as Hlast.
    fold N in Hlast. fold w in Hlast.
    rewrite E in HS. fold N in HS.
    assert (HI : inject_Z (Z.of_nat i) == N - 1) by lra.
    rewrite HI. lra.
  - rewrite HS. lra.
Qed.

Lemma linspace_first first last n :
  (1 <= n)%nat -> nth 0 (np.linspace first last (S n)) 0 == first.
Proof.
  intros Hn. rewrite nth_linspace by lia.
  replace (0 =? n)%nat with false by (symmetry; apply Nat.eqb_neq; lia).
  simpl. change (inject_Z 0) with 0. ring.
Qed.

Lemma linspace_last first last n :
  (1 <= n)%nat -> nth n (np.linspace first last (S n)) 0 = last.
Proof.
  intros Hn. rewrite nth_linspace by lia. now rewrite Nat.eqb_refl.
Qed.

(** The range of a non-empty sample covers every sample. *)
Lemma outer_edges_bounds x xs :
  fst (np.outer_edges (np.array (x :: xs))) <=
    snd (np.outer_edges (np.array (x :: xs))) /\
  forall y, In y (x :: xs) ->
    fst (np.outer_edges (np.array (x :: xs))) <= y /\
    y <= snd (np.outer_edges (np.array (x :: xs))).
Proof.
  unfold np.outer_edges, np.array. simpl.
  destruct (fold_minimum_is_min xs x) as [Hmin_in Hmin].
  destruct (fold_maximum_is_max xs x) as [_ Hmax].
  assert (Hmm : fold_left np.minimum xs x <= fold_left np.maximum xs x)
    by (apply Hmax; exact Hmin_in).
  destruct (Qeq_bool _ _); simpl; (split; [lra |]); intros y Hy;
    specialize (Hmin y Hy); specialize (Hmax y Hy); split; lra.
Qed.

(** ** [np.histogram] *)

(** The counts of a non-empty sample add up to its size. *)
Lemma histogram_counts_sum x xs bins counts edges :
  np.histogram (np.array (x :: xs)) bins = Py.Ok (counts, edges) ->
  list_sum counts = List.length (x :: xs).
Proof.
  unfold np.histogram.
  destruct (bins <? 1)%Z eqn:Hb; [discriminate |].
  apply Z.ltb_ge in Hb.
  destruct (outer_edges_bounds x xs) as [Hle Hin].
  destruct (np.outer_edges (np.array (x :: xs))) as [first last].
  simpl in Hle, Hin.
  intros H. injection H as <- <-.
  destruct (Z.to_nat bins) as [| m] eqn:Hn; [lia |].
  change (np.data (np.array (x :: xs))) with (x :: xs).
  apply counts_of_partition. intros y Hy.
  destruct (Hin y Hy) as [Hlo Hhi].
  apply (closed_cover
           (fun i => nth i (np.linspace first last (S (S m))) 0) y m).
  - intros i Hi. apply linspace_mono; [exact Hle | lia].
  - rewrite linspace_first by lia. exact Hlo.
  - rewrite linspace_last by lia. exact Hhi.
Qed.

Lemma nth_skipn_1 {A} (l : list A) i d : nth i (skipn 1 l) d = nth (S i) l d.
Proof.
  destruct l as [| a l]; simpl; [now destruct i | reflexivity].
Qed.


Lemma histogram_edges a bins counts edges :
  np.histogram a bins = Py.Ok (counts, edges) ->
  (1 <= bins)%Z /\
  edges = np.linspace (fst (np.outer_edges a)) (snd (np.outer_edges a))
            (S (Z.to_nat bins)) /\
  counts = map (fun i => np.count (np.in_bin edges (Z.to_nat bins) i)
                           (np.data a)) (seq 0 (Z.to_nat bins)).
Proof.
  unfold np.histogram. destruct (bins <? 1)%Z eqn:Hb; [discriminate |].
  apply Z.ltb_ge in Hb.
  destruct (np.outer_edges a) as [first last].
  intros H. injection H as <- <-. now repeat split.
Qed.



(** ** [log_histogram] *)

(** On a non-empty sample and a positive number of bins, lines 78 to 101
    complete and fill the record from the results of numpy. *)
Lemma histogram_proto_nonempty x xs bins :
  (1 <= bins)%Z ->
  exists counts edges,
    np.histogram (np.array (x :: xs)) bins = Py.Ok (counts, edges) /\
    Logger.histogram_proto (x :: xs) bins =
      Py.Ok {| tf.min := fold_left np.minimum xs x;
               tf.max := fold_left np.maximum xs x;
               tf.num := np.prod (np.shape (np.array (x :: xs)));
               tf.sum := np.sum (np.float64s (np.array (x :: xs)));
               tf.sum_squares := np.sum (np.square (np.array (x :: xs)));
               tf.bucket_limit := skipn 1 edges;
               tf.bucket := counts |}.
Proof.
  intros Hb. unfold Logger.histogram_proto.
  destruct (np.histogram (np.array (x :: xs)) bins) as [[counts edges] | e]
    eqn:Hh.
  - exists counts, edges. split; [reflexivity |].
    simpl. now rewrite !append_all_app.
  - exfalso. revert Hh. unfold np.histogram.
    replace (bins <? 1)%Z with false by (symmetry; apply Z.ltb_ge; lia).
    now destruct (np.outer_edges _).
Qed.

(** The writer after [log_histogram]: one append and one flush when the
    record could be built, nothing otherwise. *)
Lemma log_histogram_run tag values step bins w :
  Logger.log_histogram tag values step bins w =
  match Logger.histogram_proto values bins with
  | Py.Ok h =>
      (Py.Ok tt,
       w ++ [tf.add_summary_call
               {| tf.value := [{| tf.tag := tag;
                                  tf.content := tf.histo h |}] |} step;
             tf.flush_call])
  | Py.Raise e => (Py.Raise e, w)
  end.
Proof.
  unfold Logger.log_histogram, bind, pure, Logger.flush, on_writer.
  destruct (Logger.histogram_proto values bins) as [h | e]; [| reflexivity].
  unfold tf.flush, tf.add_summary. now rewrite <- app_assoc.
Qed.

(** What [log_histogram] does on a non-empty sample with a positive number
    of bins: it returns normally, having appended and flushed one record
    whose histogram is filled from the results of numpy. *)
Lemma log_histogram_nonempty tag x xs step bins w :
  (1 <= bins)%Z ->
  exists counts edges h,
    np.histogram (np.array (x :: xs)) bins = Py.Ok (counts, edges) /\
    h = {| tf.min := fold_left np.minimum xs x;
           tf.max := fold_left np.maximum xs x;
           tf.num := np.prod (np.shape (np.array (x :: xs)));
           tf.sum := np.sum (np.float64s (np.array (x :: xs)));
           tf.sum_squares := np.sum (np.square (np.array (x :: xs)));
           tf.bucket_limit := skipn 1 edges;
           tf.bucket := counts |} /\
    Logger.log_histogram tag (x :: xs) step bins w =
      (Py.Ok tt,
       w ++ [tf.add_summary_call
               {| tf.value := [{| tf.tag := tag;
                                  tf.content := tf.histo h |}] |} step;
             tf.flush_call]).
Proof.
  intros Hb.
  destruct (histogram_proto_nonempty x xs bins Hb)
    as [counts [edges [Hh Hproto]]].
  exists counts, edges. eexists. split; [exact Hh |].
  split; [reflexivity |].
  rewrite log_histogram_run, Hproto. reflexivity.
Qed.

(** C3: for a non-empty sample and a positive number of bins,
    [log_histogram] writes one histogram record, and the bucket counts of
    that record add up to the number of samples. *)
Theorem histogram_bucket_counts_sum (tag : string) (values : list Q)
    (step bins : Z) (w : tf.FileWriter) :
  values <> [] -> (1 <= bins)%Z ->
  exists h w',
    Logger.log_histogram tag values step bins w = (Py.Ok tt, w') /\
    Spec.wrote_histogram w w' tag step h /\
    list_sum (tf.bucket h) = List.length values.
Proof.
  intros Hne Hb. destruct values as [| x xs]; [congruence |].
  destruct (log_histogram_nonempty tag x xs step bins w Hb)
    as [counts [edges [h [Hh [Hrec Hrun]]]]].
  exists h. eexists. split; [exact Hrun |].
  split; [reflexivity |].
  rewrite Hrec. simpl tf.bucket.
  now apply (histogram_counts_sum x xs bins counts edges).
Qed.

Lemma histogram_bucket_counts_sum_witness :
  [1; 2; 2; 5; 3] <> [] /\ (1 <= 3)%Z /\
  exists h w',
    Logger.log_histogram "weights" [1; 2; 2; 5; 3] 10 3 [] = (Py.Ok tt, w') /\
    Spec.wrote_histogram [] w' "weights" 10 h /\
    list_sum (tf.bucket h) = List.length [1; 2; 2; 5; 3].
Proof.
  split; [discriminate |]. split; [lia |].
  apply (histogram_bucket_counts_sum "weights" [1; 2; 2; 5; 3] 10%Z 3%Z []);
    [discriminate | lia].
Defined.







(** C7: on the empty sample [log_histogram] raises [ValueError] and the
    writer receives no call; with a positive number of bins the exception is
    that of [np.min], which has no value to return. *)
Theorem log_histogram_empty_raises (tag : string) (step bins : Z)
    (w : tf.FileWriter) :
  Logger.log_histogram tag [] step bins w =
    (Py.Raise
       (Py.ValueError
          (if (bins <? 1)%Z
           then "`bins` must be positive, when an integer"
           else "zero-size array to reduction operation minimum which has no identity")),
     w).
Proof.
  rewrite log_histogram_run.
  unfold Logger.histogram_proto, np.histogram.
  destruct (bins <? 1)%Z; reflexivity.
Qed.

(** ** Calls received by the writer *)

(** C6: [log_scalar], and [log_histogram] on a non-empty sample with a
    positive number of bins, make the writer receive one append, of the
    record they built, immediately followed by one flush.  [log_images]
    makes it receive the append of the sub-records that its loop built and
    no flush, whatever the buffer class; with the buffer class of the source
    the loop completes on the empty batch only.  A call that raises makes the
    writer receive nothing.  [add_summary] appends and flushes, [flush]
    flushes. *)
Theorem sink_calls_of_each_method :
  (forall tag value step w,
     Logger.log_scalar tag value step w =
       (Py.Ok tt,
        w ++ [tf.add_summary_call
                {| tf.value := [tf.scalar_value tag value] |} step;
              tf.flush_call])) /\
  (forall tag values step bins w,
     values <> [] -> (1 <= bins)%Z ->
     exists h,
       Logger.histogram_proto values bins = Py.Ok h /\
       Logger.log_histogram tag values step bins w =
         (Py.Ok tt,
          w ++ [tf.add_summary_call
                  {| tf.value := [{| tf.tag := tag;
                                     tf.content := tf.histo h |}] |} step;
                tf.flush_call])) /\
  (forall tag values step bins w e,
     Logger.histogram_proto values bins = Py.Raise e ->
     Logger.log_histogram tag values step bins w = (Py.Raise e, w)) /\
  (forall png F tag images step w vs,
     Logger.image_loop png F tag 0 images [] = Py.Ok vs ->
     Logger.log_images_with png F tag images step w =
       (Py.Ok tt, w ++ [tf.add_summary_call {| tf.value := vs |} step])) /\
  (forall png F tag images step w e,
     Logger.image_loop png F tag 0 images [] = Py.Raise e ->
     Logger.log_images_with png F tag images step w = (Py.Raise e, w)) /\
  (forall png tag step w,
     Logger.log_images png tag [] step w =
       (Py.Ok tt, w ++ [tf.add_summary_call {| tf.value := [] |} step])) /\
  (forall png tag img rest step w,
     exists e,
       Logger.log_images png tag (img :: rest) step w = (Py.Raise e, w)) /\
  (forall summary step w,
     Logger.add_summary summary step w =
       (Py.Ok tt, w ++ [tf.add_summary_call summary step; tf.flush_call])) /\
  (forall w, Logger.flush w = (Py.Ok tt, w ++ [tf.flush_call])).
Proof.
  repeat apply conj.
  - intros tag value step w.
    unfold Logger.log_scalar, bind, Logger.flush, on_writer.
    unfold tf.flush, tf.add_summary. now rewrite <- app_assoc.
  - intros tag values step bins w Hne Hb.
    destruct values as [| x xs]; [congruence |].
    destruct (histogram_proto_nonempty x xs bins Hb)
      as [counts [edges [_ Hproto]]].
    eexists. split; [exact Hproto |].
    now rewrite log_histogram_run, Hproto.
  - intros tag values step bins w e Hproto.
    now rewrite log_histogram_run, Hproto.
  - intros png F tag images step w vs. apply log_images_with_return.
  - intros png F tag images step w e. apply log_images_with_raise.
  - reflexivity.
  - intros png tag img rest step w.
    destruct (image_loop_StringIO_raises png tag 0%nat img rest []) as [e He].
    exists e. now apply log_images_with_raise.
  - intros summary step w.
    unfold Logger.add_summary, bind, Logger.flush, on_writer.
    unfold tf.flush, tf.add_summary. now rewrite <- app_assoc.
  - reflexivity.
Qed.

Lemma sink_calls_of_each_method_witness :
  ([1; 2; 2; 5; 3] <> [] /\ (1 <= 3)%Z) /\
  (exists h,
     Logger.histogram_proto [1; 2; 2; 5; 3] 3 = Py.Ok h /\
     Logger.log_histogram "weights" [1; 2; 2; 5; 3] 10 3 [] =
       (Py.Ok tt,
        [tf.add_summary_call
           {| tf.value := [{| tf.tag := "weights";
                              tf.content := tf.histo h |}] |} 10;
         tf.flush_call])) /\
  Logger.image_loop Samples.png io.BytesIO "img" 0 [Samples.pixel] [] =
    Py.Ok [Spec.image_record "img" 0 Samples.pixel
             [x89; x50; x4e; x47; x0d; x0a; x1a; x0a]] /\
  Logger.log_images_with Samples.png io.BytesIO "img" [Samples.pixel] 7 [] =
    (Py.Ok tt,
     [tf.add_summary_call
        {| tf.value :=
             [Spec.image_record "img" 0 Samples.pixel
                [x89; x50; x4e; x47; x0d; x0a; x1a; x0a]] |} 7]).
Proof.
  assert (H : [1; 2; 2; 5; 3] <> [] /\ (1 <= 3)%Z)
    by (split; [discriminate | lia]).
  split; [exact H |]. split.
  - exact (proj1 (proj2 sink_calls_of_each_method)
             "weights" [1; 2; 2; 5; 3] 10%Z 3%Z [] (proj1 H) (proj2 H)).
  - split; [reflexivity |].
    apply (proj1 (proj2 (proj2 (proj2 sink_calls_of_each_method)))
             Samples.png io.BytesIO "img" [Samples.pixel] 7%Z []).
    reflexivity.
Defined.

(** * Further properties of the methods *)

(** ** Queue and event file *)

Lemma replay_snoc_add queued file w s n :
  tf.replay queued file (w ++ [tf.add_summary_call s n]) =
  (fst (tf.replay queued file w) ++ [{| tf.step := n; tf.summary := s |}],
   snd (tf.replay queued file w)).
Proof.
  now rewrite replay_app.
Qed.

Lemma replay_snoc_flush queued file w :
  tf.replay queued file (w ++ [tf.flush_call]) =
  ([], snd (tf.replay queued file w) ++ fst (tf.replay queued file w)).
Proof.
  now rewrite replay_app.
Qed.

Lemma queued_add_summary w s n :
  tf.queued (tf.add_summary w s n) =
  tf.queued w ++ [{| tf.step := n; tf.summary := s |}].
Proof.
  unfold tf.queued, tf.add_summary. now rewrite replay_snoc_add.
Qed.

Lemma events_add_summary w s n :
  tf.events (tf.add_summary w s n) =
  tf.events w ++ [{| tf.step := n; tf.summary := s |}].
Proof.
  unfold tf.add_summary. now rewrite events_app.
Qed.

Lemma events_flush w : tf.events (tf.flush w) = tf.events w.
Proof.
  unfold tf.flush. rewrite events_app. simpl. now rewrite app_nil_r.
Qed.

(** The event file only grows along the calls. *)
Lemma on_disk_app w calls :
  exists more, tf.on_disk (w ++ calls) = tf.on_disk w ++ more.
Proof.
  induction calls as [| c calls IH] using rev_ind.
  - exists []. now rewrite !app_nil_r.
  - destruct IH as [more IH]. rewrite app_assoc. unfold tf.on_disk in *.
    destruct c as [s n |].
    + exists more. now rewrite replay_snoc_add.
    + exists (more ++ fst (tf.replay [] [] (w ++ calls))).
      rewrite replay_snoc_flush. simpl. now rewrite IH, app_assoc.
Qed.

Lemma append_only_calls w calls :
  (List.length (tf.events calls) <= 1)%nat ->
  Spec.append_only w (w ++ calls).
Proof.
  intros Hlen. split.
  - exists (tf.events calls). now rewrite events_app.
  - apply on_disk_app.
Qed.

(** X1: [add_summary] returns normally and leaves the given summary, at the
    given step, as the last record of the event file, with nothing left in
    the queue. *)
Theorem add_summary_is_durable (summary : tf.Summary) (step : Z)
    (w : tf.FileWriter) :
  let record := {| tf.step := step; tf.summary := summary |} in
  exists w',
    Logger.add_summary summary step w = (Py.Ok tt, w') /\
    tf.events w' = tf.events w ++ [record] /\
    tf.on_disk w' = tf.events w ++ [record] /\
    tf.queued w' = [].
Proof.
  intros record. eexists. split; [reflexivity |].
  rewrite events_flush, on_disk_flush, queued_flush, events_add_summary.
  repeat split.
Qed.

(** X2: a second [flush] changes neither the records appended, nor the
    contents of the event file, nor the queue: no record is duplicated. *)
Theorem flush_twice (w : tf.FileWriter) :
  exists w1 w2,
    Logger.flush w = (Py.Ok tt, w1) /\
    Logger.flush w1 = (Py.Ok tt, w2) /\
    tf.events w2 = tf.events w /\
    tf.on_disk w1 = tf.events w /\
    tf.on_disk w2 = tf.on_disk w1 /\
    tf.queued w2 = tf.queued w1.
Proof.
  do 2 eexists. split; [reflexivity |]. split; [reflexivity |].
  rewrite !on_disk_flush, !queued_flush, !events_flush.
  repeat split.
Qed.

(** X3: whatever the buffer class, a [log_images] that returns leaves its
    record in the queue: the event file is as before the call, and the
    record reaches it with the next flush. *)
Theorem log_images_leaves_record_queued
    (png : np.ndarray -> Py.outcome (list byte)) (F : io.FileObj)
    (tag : string) (images : list np.ndarray) (step : Z)
    (w : tf.FileWriter) :
  match Logger.log_images_with png F tag images step w with
  | (Py.Ok _, w') =>
      tf.on_disk w' = tf.on_disk w /\
      exists record,
        tf.step record = step /\
        tf.queued w' = tf.queued w ++ [record] /\
        tf.on_disk (tf.flush w') = tf.events w ++ [record]
  | (Py.Raise _, w') => w' = w
  end.
Proof.
  unfold Logger.log_images_with, bind, pure, on_writer.
  destruct (Logger.image_loop png F tag 0 images []) as [vs | e];
    [| reflexivity].
  split; [apply on_disk_add_summary |].
  eexists. split; [| split].
  2: apply queued_add_summary.
  - reflexivity.
  - rewrite on_disk_flush. apply events_add_summary.
Qed.

(** X4: [log_images] returns normally on the empty batch only, where it
    appends a record without sub-records; on any other batch it raises what
    the first image makes it raise: the exception of the encoder, or the
    [TypeError] of the text buffer. *)
Theorem log_images_by_first_image
    (png : np.ndarray -> Py.outcome (list byte)) (tag : string)
    (images : list np.ndarray) (step : Z) (w : tf.FileWriter) :
  Logger.log_images png tag images step w =
  match images with
  | [] => (Py.Ok tt, w ++ [tf.add_summary_call {| tf.value := [] |} step])
  | img :: _ =>
      (Py.Raise
         match png img with
         | Py.Ok _ => Py.TypeError "string argument expected, got 'bytes'"
         | Py.Raise e => e
         end, w)
  end.
Proof.
  destruct images as [| img rest]; [reflexivity |].
  apply log_images_with_raise. simpl.
  unfold Logger.image_value, plt.imsave.
  now destruct (png img).
Qed.

Lemma log_histogram_nonpositive_bins_aux tag values step bins w :
  (bins < 1)%Z ->
  Logger.log_histogram tag values step bins w =
    (Py.Raise (Py.ValueError "`bins` must be positive, when an integer"), w).
Proof.
  intros Hb. rewrite log_histogram_run.
  unfold Logger.histogram_proto, np.histogram.
  replace (bins <? 1)%Z with true by (symmetry; apply Z.ltb_lt; exact Hb).
  reflexivity.
Qed.

(** X5: with fewer than one bin [log_histogram] raises the [ValueError] of
    [np.histogram], whatever the samples, and the writer receives no call. *)
Theorem log_histogram_nonpositive_bins (tag : string) (values : list Q)
    (step bins : Z) (w : tf.FileWriter) :
  (bins < 1)%Z ->
  Logger.log_histogram tag values step bins w =
    (Py.Raise (Py.ValueError "`bins` must be positive, when an integer"), w).
Proof.
  apply log_histogram_nonpositive_bins_aux.
Qed.

Lemma log_histogram_nonpositive_bins_witness :
  (0 < 1)%Z /\
  Logger.log_histogram "weights" [1; 2; 2; 5; 3] 10 0 [] =
    (Py.Raise (Py.ValueError "`bins` must be positive, when an integer"), []).
Proof.
  split; [lia |].
  apply (log_histogram_nonpositive_bins "weights" [1; 2; 2; 5; 3] 10%Z 0%Z []).
  lia.
Defined.

(** X6: every method is append-only, whether it returns or raises: the
    records appended before the call stay the first records, in order, at
    most one record is added, and the event file keeps what it held. *)
Theorem methods_are_append_only :
  (forall tag value step w,
     Spec.append_only w (snd (Logger.log_scalar tag value step w))) /\
  (forall png tag images step w,
     Spec.append_only w (snd (Logger.log_images png tag images step w))) /\
  (forall tag values step bins w,
     Spec.append_only w (snd (Logger.log_histogram tag values step bins w))) /\
  (forall summary step w,
     Spec.append_only w (snd (Logger.add_summary summary step w))) /\
  (forall w, Spec.append_only w (snd (Logger.flush w))).
Proof.
  assert (Hsame : forall w, Spec.append_only w w).
  { intros w. rewrite <- (app_nil_r w) at 2.
    apply append_only_calls. simpl. lia. }
  split; [| split; [| split; [| split]]].
  - intros tag value step w.
    unfold Logger.log_scalar, bind, Logger.flush, on_writer. simpl.
    unfold tf.flush, tf.add_summary. rewrite <- app_assoc.
    apply append_only_calls. simpl. lia.
  - intros png tag images step w.
    unfold Logger.log_images, Logger.log_images_with, bind, pure, on_writer.
    destruct (Logger.image_loop png io.StringIO tag 0 images []); simpl;
      [| apply Hsame].
    unfold tf.add_summary. apply append_only_calls. simpl. lia.
  - intros tag values step bins w. rewrite log_histogram_run.
    destruct (Logger.histogram_proto values bins); simpl; [| apply Hsame].
    apply append_only_calls. simpl. lia.
  - intros summary step w.
    unfold Logger.add_summary, bind, Logger.flush, on_writer. simpl.
    unfold tf.flush, tf.add_summary. rewrite <- app_assoc.
    apply append_only_calls. simpl. lia.
  - intros w. unfold Logger.flush, on_writer. simpl.
    unfold tf.flush. apply append_only_calls. simpl. lia.
Qed.

(** X7: two calls of [log_scalar] in a row, with steps in the signed 64-bit
    range, leave both records in the event file, in call order, whatever
    their tags and steps: equal tags are not merged and steps need not
    increase.  Each record holds its value rounded to single precision. *)
Theorem log_scalar_twice (tag1 tag2 : string) (value1 value2 : Q)
    (step1 step2 : Z) (w : tf.FileWriter) :
  tf.fits_int64 step1 -> tf.fits_int64 step2 ->
  let record tag value step :=
    {| tf.step := step;
       tf.summary :=
         {| tf.value :=
              [{| tf.tag := tag;
                  tf.content := tf.simple_value (Float32.of_Q value) |}] |} |}
  in
  exists w',
    (Logger.log_scalar tag1 value1 step1 ;;
     Logger.log_scalar tag2 value2 step2)%logger w = (Py.Ok tt, w') /\
    tf.events w' =
      tf.events w ++ [record tag1 value1 step1; record tag2 value2 step2] /\
    tf.on_disk w' = tf.events w'.
Proof.
  intros _ _ record. eexists. split; [reflexivity |].
  rewrite on_disk_flush, !events_flush, !events_add_summary, events_flush,
    events_add_summary, <- app_assoc.
  split; reflexivity.
Qed.

Lemma log_scalar_twice_witness :
  tf.fits_int64 7 /\ tf.fits_int64 3 /\
  exists w',
    (Logger.log_scalar "loss" Samples.tenth 7 ;;
     Logger.log_scalar "loss" Samples.fifth 3)%logger [] = (Py.Ok tt, w') /\
    tf.events w' =
      [] ++
      [{| tf.step := 7;
          tf.summary :=
            {| tf.value :=
                 [{| tf.tag := "loss";
                     tf.content :=
                       tf.simple_value (Float32.of_Q Samples.tenth) |}] |} |};
       {| tf.step := 3;
          tf.summary :=
            {| tf.value :=
                 [{| tf.tag := "loss";
                     tf.content :=
                       tf.simple_value (Float32.of_Q Samples.fifth) |}] |} |}]
    /\
    tf.on_disk w' = tf.events w'.
Proof.
  assert (H7 : tf.fits_int64 7) by (unfold tf.fits_int64; simpl; lia).
  assert (H3 : tf.fits_int64 3) by (unfold tf.fits_int64; simpl; lia).
  split; [exact H7 |]. split; [exact H3 |].
  exact (log_scalar_twice "loss" "loss" Samples.tenth Samples.fifth 7%Z 3%Z []
           H7 H3).
Defined.

(** ** Tags of the images of a batch *)

Lemma string_app_inv_head (a s1 s2 : string) :
  (a ++ s1)%string = (a ++ s2)%string -> s1 = s2.
Proof.
  induction a as [| c a IH]; simpl; intros H; [exact H |].
  injection H as H. now apply IH.
Qed.

Lemma str_of_nat_inj i j : Py.str_of_nat i = Py.str_of_nat j -> i = j.
Proof.
  unfold Py.str_of_nat. intros H.
  apply (f_equal NilEmpty.uint_of_string) in H.
  rewrite !NilEmpty.usu in H. injection H as H.
  now apply DecimalNat.Unsigned.to_uint_inj.
Qed.

(** X8: under one batch tag, images at different positions get different
    tags. *)
Theorem image_tags_differ (tag : string) (i j : nat) :
  i <> j -> Logger.image_tag tag i <> Logger.image_tag tag j.
Proof.
  intros Hij H. apply Hij. unfold Logger.image_tag in H.
  apply string_app_inv_head in H. injection H as H.
  now apply str_of_nat_inj.
Qed.

Lemma image_tags_differ_witness :
  9%nat <> 10%nat /\ Logger.image_tag "img" 9 <> Logger.image_tag "img" 10.
Proof.
  split; [lia |]. apply (image_tags_differ "img" 9 10). lia.
Defined.

(** ** Shape of the histogram record *)

(** X9: for a non-empty sample and a positive number of bins, no sample
    lies above the last bucket limit of the written record. *)
Theorem histogram_last_limit_covers_samples (tag : string) (values : list Q)
    (step bins : Z) (w : tf.FileWriter) :
  values <> [] -> (1 <= bins)%Z ->
  exists h w',
    Logger.log_histogram tag values step bins w = (Py.Ok tt, w') /\
    Spec.wrote_histogram w w' tag step h /\
    (forall x, In x values ->
       x <= nth (Z.to_nat bins - 1) (tf.bucket_limit h) 0).
Proof.
  intros Hne Hb. destruct values as [| x xs]; [congruence |].
  destruct (log_histogram_nonempty tag x xs step bins w Hb)
    as [counts [edges [h [Hh [Hrec Hrun]]]]].
  exists h. eexists. split; [exact Hrun |].
  split; [reflexivity |].
  apply histogram_edges in Hh. destruct Hh as [_ [Hedges _]].
  rewrite Hrec. cbn [tf.bucket_limit]. rewrite Hedges.
  intros y Hy. rewrite nth_skipn_1.
  replace (S (Z.to_nat bins - 1)) with (Z.to_nat bins) by lia.
  rewrite linspace_last by lia.
  now apply outer_edges_bounds.
Qed.

Lemma histogram_last_limit_covers_samples_witness :
  [1; 1; 1] <> [] /\ (1 <= 4)%Z /\
  exists h w',
    Logger.log_histogram "weights" [1; 1; 1] 10 4 [] = (Py.Ok tt, w') /\
    Spec.wrote_histogram [] w' "weights" 10 h /\
    (forall x, In x [1; 1; 1] ->
       x <= nth (Z.to_nat 4 - 1) (tf.bucket_limit h) 0).
Proof.
  split; [discriminate |]. split; [lia |].
  apply (histogram_last_limit_covers_samples "weights" [1; 1; 1] 10%Z 4%Z []);
    [discriminate | lia].
Defined.

(** ** Outcomes *)

(** X12: no method reads the writer: the outcome of a call and the calls it
    makes on the writer are the same whatever the writer has received
    before. *)
Theorem methods_ignore_writer_history :
  (forall tag value step,
     exists r calls, forall w,
       Logger.log_scalar tag value step w = (r, w ++ calls)) /\
  (forall png tag images step,
     exists r calls, forall w,
       Logger.log_images png tag images step w = (r, w ++ calls)) /\
  (forall tag values step bins,
     exists r calls, forall w,
       Logger.log_histogram tag values step bins w = (r, w ++ calls)) /\
  (forall summary step,
     exists r calls, forall w,
       Logger.add_summary summary step w = (r, w ++ calls)) /\
  (exists r calls, forall w, Logger.flush w = (r, w ++ calls)).
Proof.
  split; [| split; [| split; [| split]]].
  - intros tag value step. do 2 eexists. intros w.
    unfold Logger.log_scalar, bind, Logger.flush, on_writer.
    unfold tf.flush, tf.add_summary. rewrite <- app_assoc. reflexivity.
  - intros png tag images step.
    destruct (Logger.image_loop png io.StringIO tag 0 images []) as [vs | e]
      eqn:Hloop.
    + do 2 eexists. intros w. unfold Logger.log_images.
      rewrite (log_images_with_return png io.StringIO tag images step w vs Hloop).
      reflexivity.
    + exists (Py.Raise e), []. intros w. rewrite app_nil_r.
      unfold Logger.log_images. now apply log_images_with_raise.
  - intros tag values step bins.
    destruct (Logger.histogram_proto values bins) as [h | e] eqn:Hproto.
    + do 2 eexists. intros w. rewrite log_histogram_run, Hproto. reflexivity.
    + exists (Py.Raise e), []. intros w.
      rewrite log_histogram_run, Hproto, app_nil_r. reflexivity.
  - intros summary step. do 2 eexists. intros w.
    unfold Logger.add_summary, bind, Logger.flush, on_writer.
    unfold tf.flush, tf.add_summary. rewrite <- app_assoc. reflexivity.
  - do 2 eexists. intros w. reflexivity.
Qed.
